(** * Verification of the AI SEO Specialist tool (src/main.py)

    A shallow embedding of the non-UI functions of [src/main.py]:
    the heuristic meta-description analyzer ([analyze_meta_description],
    [calculate_seo_score]), the trends client ([fetch_keyword_trends],
    [create_mock_keyword_data]), the credential resolution
    ([configure_openai], [get_api_key_input]) and the guard of
    [generate_meta_description], and what the "Keyword Explorer" page shows
    when its button is pressed (metrics, table formatting, CSV file name).

    The module as written does not parse: the prompt f-string of
    [generate_meta_description] (line 166) is not closed where intended.
    Every other function is modelled as written, and of
    [generate_meta_description] only the lines before that literal.

    Pandas arithmetic on the popularity column is float64 arithmetic,
    modelled exactly: rounding to the nearest double, ties to even.

    Python strings are modelled as [string] over 8-bit characters, read as
    the Unicode code points U+0000..U+00FF (Latin-1); [len] is the number of
    characters, and [str.lower] / [str.split] / [str.isspace] are written out
    for that range as CPython defines them: the development is about
    contents and topics within that range. *)

From Stdlib Require Import ZArith QArith Qround Qabs Qpower String Ascii List Bool Lia Lqa.
Import ListNotations.
Open Scope string_scope.
Open Scope Z_scope.

(* ================================================================== *)
(** ** Python string primitives on the Latin-1 range *)

(** [str.lower] per character: A-Z and U+00C0..U+00DE except U+00D7. *)
Definition lower_char (c : ascii) : ascii :=
  let n := nat_of_ascii c in
  if ((65 <=? n) && (n <=? 90))%nat
     || ((192 <=? n) && (n <=? 222) && negb (n =? 215))%nat
  then ascii_of_nat (n + 32)
  else c.

Fixpoint py_lower (s : string) : string :=
  match s with
  | EmptyString => EmptyString
  | String c rest => String (lower_char c) (py_lower rest)
  end.

(** [str.isspace] on U+0000..U+00FF: \t \n \v \f \r, U+001C..U+001F,
    space, U+0085 and U+00A0. *)
Definition is_space (c : ascii) : bool :=
  let n := nat_of_ascii c in
  ((9 <=? n) && (n <=? 13))%nat || ((28 <=? n) && (n <=? 32))%nat
  || (n =? 133)%nat || (n =? 160)%nat.

(** [str.split()] with no separator: maximal runs of non-whitespace. *)
Fixpoint split_go (s cur : string) : list string :=
  match s with
  | EmptyString => match cur with EmptyString => [] | _ => [cur] end
  | String c rest =>
      if is_space c then
        match cur with
        | EmptyString => split_go rest EmptyString
        | _ => cur :: split_go rest EmptyString
        end
      else split_go rest (cur ++ String c EmptyString)
  end.

Definition py_split (s : string) : list string := split_go s EmptyString.

Fixpoint is_prefix (p s : string) : bool :=
  match p, s with
  | EmptyString, _ => true
  | String a p', String b s' => Ascii.eqb a b && is_prefix p' s'
  | String _ _, EmptyString => false
  end.

(** Python's [needle in haystack] on strings. *)
Fixpoint py_in (needle hay : string) : bool :=
  is_prefix needle hay ||
  match hay with
  | EmptyString => false
  | String _ rest => py_in needle rest
  end.

(** Python's [ch in s] for a single character. *)
Fixpoint char_in (ch : ascii) (s : string) : bool :=
  match s with
  | EmptyString => false
  | String c rest => Ascii.eqb ch c || char_in ch rest
  end.

Fixpoint chars (s : string) : list ascii :=
  match s with
  | EmptyString => []
  | String c rest => c :: chars rest
  end.

Definition py_len (s : string) : Z := Z.of_nat (String.length s).

(* ================================================================== *)
(** ** Heuristic analyzer: [calculate_seo_score], [analyze_meta_description] *)

Definition calculate_seo_score (length : Z) (contains_topic has_action_word : bool)
  : Z :=
  let score := 0 in
  let score :=
    if (120 <=? length) && (length <=? 160) then score + 40
    else if ((100 <=? length) && (length <? 120))
            || ((160 <? length) && (length <=? 180)) then score + 30
    else if ((80 <=? length) && (length <? 100))
            || ((180 <? length) && (length <=? 200)) then score + 20
    else score + 10 in
  let score := if contains_topic then score + 30 else score in
  let score := if has_action_word then score + 30 else score in
  Z.min score 100.

(** The returned dictionary of [analyze_meta_description]. *)
Record analysis := {
  an_length : Z;
  word_count : Z;
  contains_topic : bool;
  has_action_word : bool;
  suggestions : list string;
  score : Z
}.

Definition action_words : list string :=
  ["discover"; "learn"; "get"; "find"; "explore"; "boost"; "improve"; "master"].

Definition msg_shorten := "Consider shortening to under 160 characters".
Definition msg_lengthen := "Consider adding more descriptive content".
Definition msg_topic := "Include main topic keywords".
Definition msg_action := "Add action words to encourage clicks".
Definition msg_punct := "Consider adding punctuation for emphasis".

Definition topic_check (description topic : string) : bool :=
  let topic_words := py_split (py_lower topic) in
  existsb (fun word => py_in word (py_lower description)) topic_words.

Definition action_check (description : string) : bool :=
  existsb (fun word => py_in word (py_lower description)) action_words.

Definition punct_check (description : string) : bool :=
  existsb (fun ch => char_in ch description) (chars "!?").

Definition analyze_meta_description (description topic : string) : analysis :=
  let length := py_len description in
  let wc := Z.of_nat (List.length (py_split description)) in
  let ct := topic_check description topic in
  let ha := action_check description in
  let suggestions := [] in
  let suggestions :=
    if 160 <? length then (suggestions ++ [msg_shorten])%list else suggestions in
  let suggestions :=
    if length <? 120 then (suggestions ++ [msg_lengthen])%list else suggestions in
  let suggestions := if negb ct then (suggestions ++ [msg_topic])%list else suggestions in
  let suggestions := if negb ha then (suggestions ++ [msg_action])%list else suggestions in
  let suggestions :=
    if negb (punct_check description) then (suggestions ++ [msg_punct])%list
    else suggestions in
  {| an_length := length; word_count := wc; contains_topic := ct;
     has_action_word := ha; suggestions := suggestions;
     score := calculate_seo_score length ct ha |}.

(* ================================================================== *)
(** ** Exceptions and Streamlit messages *)

(** A Python computation either returns or raises an exception whose
    [str(e)] is the carried message. *)
Inductive py (A : Type) : Type :=
| Ok (a : A)
| Exc (msg : string).
Arguments Ok {A} a.
Arguments Exc {A} msg.

Definition py_bind {A B} (m : py A) (k : A -> py B) : py B :=
  match m with
  | Ok a => k a
  | Exc e => Exc e
  end.

Notation "x <- m ;; k" := (py_bind m (fun x => k))
  (at level 61, m at next level, right associativity).

(** What [st.error] shows on the page. *)
Inductive ui_msg := UiError (text : string).

(** A Python dict with string keys, in insertion order. *)
Fixpoint dict_get {V} (k : string) (d : list (string * V)) : option V :=
  match d with
  | [] => None
  | (k', v) :: rest => if String.eqb k k' then Some v else dict_get k rest
  end.

(** [d[k]]: raises [KeyError], whose [str] is the quoted key. *)
Definition py_getitem {V} (d : list (string * V)) (k : string) : py V :=
  match dict_get k d with
  | Some v => Ok v
  | None => Exc ("'" ++ k ++ "'")
  end.

(* ================================================================== *)
(** ** Trends client: [fetch_keyword_trends], [create_mock_keyword_data] *)

(** A row of the "top" frame of [pytrends.related_queries()]:
    columns [query] and [value] (an integer popularity score). *)
Record related_row := { rq_query : string; rq_value : Z }.
Abbreviation related_df := (list related_row).

(** The entry of one keyword: a dict with keys ["top"] and ["rising"];
    pytrends stores [None] in a bucket that has no data. *)
Abbreviation kw_entry := (list (string * option related_df)).
Abbreviation related_queries_result := (list (string * kw_entry)).

(** Outcome of the provider calls [TrendReq(...)], [build_payload],
    [related_queries()]: they raise, or return the result dict. *)
Inductive trends_call :=
| TrendsRaises (e : string)
| TrendsReturns (r : related_queries_result).

(** The returned DataFrame: its column labels and its rows. *)
Record trend_row := {
  query : string;
  value : Z;
  estimated_volume : Z;
  difficulty : Z
}.
Record frame := { columns : list string; rows : list trend_row }.

(** [pd.DataFrame()] *)
Definition empty_frame : frame := {| columns := []; rows := [] |}.

Definition trend_columns : list string :=
  ["query"; "value"; "estimated_volume"; "difficulty"].

(** numpy's [round] (half to even), applied to a finite float; also the
    rounding of a scaled value to an integer in [to_double]. *)
Definition np_round (q : Q) : Z :=
  let fl := Qfloor q in
  match Qcompare (q - inject_Z fl)%Q (1 # 2) with
  | Lt => fl
  | Gt => fl + 1
  | Eq => if Z.even fl then fl else fl + 1
  end.

(** IEEE 754 binary64, as numpy and pandas compute. A finite double is
    [m * 2^e] with [|m| < 2^53] and [e >= -1074]; [to_double q] rounds
    [q] to the nearest one, ties to even, and is [None] when the result
    overflows to an infinity ([|r| >= 2^1024]). *)
Definition pow2 (e : Z) : Q := Qpower (inject_Z 2) e.

(** [floor(log2 a)] for [a > 0]. *)
Definition qlog2 (a : Q) : Z :=
  if Qle_bool 1 a then Z.log2 (Qfloor a) else - Z.log2_up (Qceiling (/ a)).

(** The exponent of the last significand bit of a double near [q]. *)
Definition dbl_exp (q : Q) : Z := Z.max (qlog2 (Qabs q) - 52) (-1074).

Definition round_at (e : Z) (q : Q) : Q :=
  (inject_Z (np_round (q / pow2 e)) * pow2 e)%Q.

Definition to_double (q : Q) : option Q :=
  if Qeq_bool q 0 then Some 0%Q
  else
    let r := round_at (dbl_exp q) q in
    if Qle_bool (pow2 1024) (Qabs r) then None else Some r.

(** [df['value'] / m] on an int64 entry: both operands are converted to
    float64, then divided; [None] stands for NaN or an infinity (a zero
    divisor). *)
Definition float_div (a b : Z) : option Q :=
  match to_double (inject_Z a), to_double (inject_Z b) with
  | Some x, Some y => if Qeq_bool y 0 then None else to_double (x / y)
  | _, _ => None
  end.

(** Line 133 for one entry: [(v / m * 100).round()], in float64; [None]
    when the entry is not finite. *)
Definition difficulty_of (v m : Z) : option Z :=
  match float_div v m with
  | Some x => option_map np_round (to_double (x * inject_Z 100))
  | None => None
  end.

Definition cast_error : string :=
  "Cannot convert non-finite values (NA or inf) to integer".

(** [.astype(int)]: raises on a non-finite entry. *)
Definition astype_int (xs : list (option Z)) : py (list Z) :=
  if forallb (fun o => match o with Some _ => true | None => false end) xs
  then Ok (map (fun o => match o with Some z => z | None => 0 end) xs)
  else Exc cast_error.

(** [series.max()] on a non-empty series. *)
Definition series_max (xs : list Z) : Z :=
  match xs with
  | [] => 0
  | x :: rest => fold_left Z.max rest x
  end.

Fixpoint attach (df : related_df) (vols diffs : list Z) : list trend_row :=
  match df, vols, diffs with
  | r :: df', v :: vols', d :: diffs' =>
      {| query := rq_query r; value := rq_value r;
         estimated_volume := v; difficulty := d |} :: attach df' vols' diffs'
  | _, _, _ => []
  end.

(** Lines 131-133: the two derived columns. *)
Definition add_metrics (df : related_df) : py frame :=
  let vals := map rq_value df in
  let vols := map (fun v => v * 100) vals in
  let m := series_max vals in
  diffs <- astype_int (map (fun v => difficulty_of v m) vals) ;;
  Ok {| columns := trend_columns; rows := attach df vols diffs |}.

(** The body of the [try] block (lines 108-135). *)
Definition fetch_try (keyword : string) (call : trends_call) : py frame :=
  match call with
  | TrendsRaises e => Exc e
  | TrendsReturns related_queries =>
      match dict_get keyword related_queries with
      | None => Ok empty_frame
      | Some entry =>
          top <- py_getitem entry "top" ;;
          match top with
          | None => Ok empty_frame
          | Some [] => Ok empty_frame
          | Some df => add_metrics df
          end
      end
  end.

Definition mk_row (q : string) (v ev d : Z) : trend_row :=
  {| query := q; value := v; estimated_volume := ev; difficulty := d |}.

Definition create_mock_keyword_data (keyword : string) : frame :=
  {| columns := trend_columns;
     rows := [mk_row (keyword ++ " tips") 100 10000 65;
              mk_row (keyword ++ " guide") 85 8500 58;
              mk_row (keyword ++ " strategies") 70 7000 72;
              mk_row (keyword ++ " best practices") 60 6000 55;
              mk_row (keyword ++ " tools") 45 4500 48] |}.

(** [fetch_keyword_trends]: the messages shown and the returned frame. *)
Definition fetch_keyword_trends (keyword : string) (call : trends_call)
  : list ui_msg * frame :=
  match fetch_try keyword call with
  | Ok df => ([], df)
  | Exc e => ([UiError ("Trends API error: " ++ e)],
              create_mock_keyword_data keyword)
  end.

(* ================================================================== *)
(** ** Credentials: [configure_openai], [get_api_key_input] *)

Record openai_client := { api_key : string }.

(** [st.secrets]: [None] when the app has no secrets file, in which case
    any lookup in it ([key in st.secrets] included) raises
    [FileNotFoundError]; otherwise the parsed key/value table. *)
Abbreviation secrets_store := (option (list (string * string))).

Definition secrets_contains (sec : secrets_store) (key : string) : py bool :=
  match sec with
  | None => Exc "No secrets files found."
  | Some d => Ok (match dict_get key d with Some _ => true | None => false end)
  end.

Definition secrets_getitem (sec : secrets_store) (key : string) : py string :=
  match sec with
  | None => Exc "No secrets files found."
  | Some d => py_getitem d key
  end.

(** The constructor [OpenAI(api_key=k)] of the installed [openai]
    package: it returns a client or raises (it refuses a missing key, for
    instance); the theorems hold for every such behaviour. *)
Abbreviation client_ctor := (string -> py openai_client).

(** Lines 12-29. [env] is [os.getenv("OPENAI_API_KEY")]. The whole body,
    the constructor calls included, is inside one [try];
    [hasattr(st, 'secrets')] always holds. *)
Definition configure_openai (sec : secrets_store) (env : option string)
  (new_client : client_ctor) : list ui_msg * option openai_client :=
  let body : py (option openai_client) :=
    present <- secrets_contains sec "OPENAI_API_KEY" ;;
    if present then
      k <- secrets_getitem sec "OPENAI_API_KEY" ;;
      c <- new_client k ;;
      Ok (Some c)
    else
      match env with
      | Some api_key => if String.eqb api_key "" then Ok None
                        else (c <- new_client api_key ;; Ok (Some c))
      | None => Ok None
      end in
  match body with
  | Ok c => ([], c)
  | Exc e => ([UiError ("API configuration failed: " ++ e)], None)
  end.

(** Lines 31-42: [temp_key] is what the sidebar password box holds
    ([""] when left blank). The constructor call is not guarded: an
    exception propagates. *)
Definition get_api_key_input (new_client : client_ctor) (temp_key : string)
  : py (option openai_client) :=
  if String.eqb temp_key "" then Ok None
  else (c <- new_client temp_key ;; Ok (Some c)).

(** Lines 97-100: the module-level [client]. *)
Definition resolve_client (sec : secrets_store) (env : option string)
  (new_client : client_ctor) (temp_key : string)
  : list ui_msg * py (option openai_client) :=
  let (msgs, c) := configure_openai sec env new_client in
  match c with
  | Some _ => (msgs, Ok c)
  | None => (msgs, get_api_key_input new_client temp_key)
  end.

(* ================================================================== *)
(** ** Content generator: [generate_meta_description] *)

(** Lines 158-205. Only the guard of lines 160-162 is modelled as code:
    the f-string opened with triple double quotes at line 166 is never
    closed by line 174 (which ends in triple single quotes), so the literal
    runs to the docstring quotes of line 208 and the module does not parse.
    The outcome of the [try] of lines 164-205 (messages shown and returned
    value) is therefore a parameter, [try_block]. *)
Definition generate_meta_description (client : option openai_client)
  (try_block : list ui_msg * option (string * analysis))
  (topic tone : string) (target_length : Z)
  : list ui_msg * option (string * analysis) :=
  match client with
  | None => ([UiError "OpenAI client not configured. Please provide API key."],
             None)
  | Some _ => try_block
  end.

(* ================================================================== *)
(** ** Page handlers: Keyword Explorer (lines 288-350) *)

(** [s.replace(' ', '_')] *)
Fixpoint replace_space (s : string) : string :=
  match s with
  | EmptyString => EmptyString
  | String c rest =>
      String (if Ascii.eqb c " " then "_"%char else c) (replace_space rest)
  end.

(** The [file_name] of the CSV download button (line 346). *)
Definition csv_file_name (keyword : string) : string :=
  "keyword_research_" ++ replace_space keyword ++ ".csv".


(** [f"{x:,}"] on an int (line 326, the "Est. Volume" column): the decimal
    digits of [x], grouped by threes from the right with commas, after a
    minus sign when [x] is negative. *)
Definition digit_char (d : Z) : ascii := ascii_of_nat (48 + Z.to_nat d).

(** The decimal digits of [n >= 0], most significant first, in front of
    [acc]; [fuel] bounds the number of digits (the bit length of [n] is
    enough). *)
Fixpoint digits_go (fuel : nat) (n : Z) (acc : list Z) : list Z :=
  match fuel with
  | O => acc
  | S f =>
      if n <? 10 then n :: acc
      else digits_go f (n / 10) ((n mod 10) :: acc)
  end.

Definition decimal_digits (n : Z) : list Z :=
  digits_go (S (Z.to_nat (Z.log2 n))) n [].

(** A comma follows a digit when a positive multiple of three digits is
    still to come. *)
Fixpoint group_thousands (ds : list Z) : string :=
  match ds with
  | [] => EmptyString
  | d :: rest =>
      String (digit_char d)
        (if negb (Nat.eqb (List.length rest) 0)
            && Nat.eqb (Nat.modulo (List.length rest) 3) 0
         then String "," (group_thousands rest) else group_thousands rest)
  end.

Definition format_thousands (x : Z) : string :=
  if x <? 0 then String "-" (group_thousands (decimal_digits (- x)))
  else group_thousands (decimal_digits x).




(* ================================================================== *)
(** ** Spec-side definitions and sample inputs *)

(** The weighted rule in the words of the spec (section 4.4, step 4). *)
Definition score_rule (length : Z) (contains_topic has_action_word : bool) : Z :=
  let length_points :=
    if (120 <=? length) && (length <=? 160) then 40
    else if ((100 <=? length) && (length <? 120))
            || ((160 <? length) && (length <=? 180)) then 30
    else if ((80 <=? length) && (length <? 100))
            || ((180 <? length) && (length <=? 200)) then 20
    else 10 in
  Z.min (0 + length_points + (if contains_topic then 30 else 0)
           + (if has_action_word then 30 else 0)) 100.

(** Reading a displayed integer back: an optional minus sign, then digits,
    the commas being skipped. *)
Fixpoint read_digits (s : string) (acc : Z) : Z :=
  match s with
  | EmptyString => acc
  | String c rest =>
      if Ascii.eqb c "," then read_digits rest acc
      else read_digits rest (acc * 10 + (Z.of_nat (nat_of_ascii c) - 48))
  end.

Definition read_int (s : string) : Z :=
  match s with
  | EmptyString => 0
  | String c rest =>
      if Ascii.eqb c "-" then - read_digits rest 0 else read_digits s 0
  end.

Ltac destruct_ifs :=
  repeat match goal with |- context [if ?b then _ else _] => destruct b eqn:? end.

Definition sample140 : string :=
  "Discover organic SEO tips? " ++ string_of_list_ascii (repeat "x"%char 113).

(** The row [fetch_keyword_trends] builds from a provider row, given the
    column maximum [m]. *)
Definition derived_row (m : Z) (r : related_row) : trend_row :=
  mk_row (rq_query r) (rq_value r) (rq_value r * 100)
         (match difficulty_of (rq_value r) m with Some d => d | None => 0 end).


Definition sample_call : trends_call :=
  TrendsReturns [("seo", [("top", Some [Build_related_row "seo tips" 80;
                                         Build_related_row "seo tools" 10;
                                         Build_related_row "seo guide" 30]);
                          ("rising", None)])].

Definition seo_top : related_df :=
  [Build_related_row "seo tips" 100; Build_related_row "seo guide" 85;
   Build_related_row "seo strategies" 70; Build_related_row "seo best practices" 60;
   Build_related_row "seo tools" 45].

(* ================================================================== *)
(** * Sample evaluations *)

Example analyze_sample :
  score (analyze_meta_description "Discover organic SEO tips!" "organic SEO") = 70.
Proof. reflexivity. Qed.

Example split_sample : py_split "  a bc  d " = ["a"; "bc"; "d"].
Proof. reflexivity. Qed.

Example fetch_sample :
  map difficulty (rows (snd (fetch_keyword_trends "seo"
    (TrendsReturns [("seo", [("top", Some [Build_related_row "a" 80;
       Build_related_row "b" 10; Build_related_row "c" 30]); ("rising", None)])]))))
  = [100; 12; 38].
Proof. reflexivity. Qed.

(** In float64, [23 / 40 * 100] is [57.49999999999999], so the difficulty is
    57 (the exact ratio, 57.5, would round to 58). *)
Example fetch_sample_float :
  map difficulty (rows (snd (fetch_keyword_trends "seo"
    (TrendsReturns [("seo", [("top", Some [Build_related_row "a" 40;
       Build_related_row "b" 23]); ("rising", None)])]))))
  = [100; 57].
Proof. vm_compute. reflexivity. Qed.

Example format_thousands_sample :
  map format_thousands [0; 100; 4500; 10000; 1234567; -4500]
  = ["0"; "100"; "4,500"; "10,000"; "1,234,567"; "-4,500"].
Proof. reflexivity. Qed.

(* ================================================================== *)
(** * Properties of the analyzer *)

Lemma split_go_nonempty (s cur w : string) :
  In w (split_go s cur) -> w <> EmptyString.
Proof.
  revert cur. induction s as [|c s IH]; intros cur H; simpl in H.
  - destruct cur; simpl in H; [contradiction|].
    destruct H as [<-|[]]. discriminate.
  - destruct (is_space c).
    + destruct cur as [|c' cur'].
      * exact (IH _ H).
      * destruct H as [<-|H]; [discriminate | exact (IH _ H)].
    + exact (IH _ H).
Qed.

Lemma py_in_empty (w : string) : w <> EmptyString -> py_in w EmptyString = false.
Proof. destruct w; [contradiction | reflexivity]. Qed.

Lemma topic_check_empty (topic : string) : topic_check EmptyString topic = false.
Proof.
  unfold topic_check.
  destruct (existsb _ _) eqn:E; [|reflexivity].
  apply existsb_exists in E as [w [Hin Hw]].
  change (py_lower EmptyString) with EmptyString in Hw.
  rewrite (py_in_empty w (split_go_nonempty _ _ _ Hin)) in Hw. discriminate.
Qed.

Lemma punct_check_chars (d : string) :
  punct_check d = char_in "!" d || char_in "?" d.
Proof. unfold punct_check; simpl. now rewrite orb_false_r. Qed.

Lemma calculate_seo_score_range (l : Z) (ct ha : bool) :
  10 <= calculate_seo_score l ct ha <= 100.
Proof.
  unfold calculate_seo_score.
  destruct_ifs; lia.
Qed.

(** C3: the analyzer's score is the fixed weighted rule applied to the
    report's length, [containsTopic] and [hasActionWord]. *)
Theorem analyze_score_is_weighted_rule (description topic : string) :
  let a := analyze_meta_description description topic in
  an_length a = py_len description /\
  score a = score_rule (an_length a) (contains_topic a) (has_action_word a).
Proof.
  simpl. split; [reflexivity|].
  unfold calculate_seo_score, score_rule.
  destruct_ifs; reflexivity.
Qed.

(** C8: for every content and topic the score lies in [0, 100]. *)
Theorem analyze_score_bounded (description topic : string) :
  0 <= score (analyze_meta_description description topic) <= 100.
Proof.
  simpl. pose proof (calculate_seo_score_range (py_len description)
                       (topic_check description topic) (action_check description)).
  lia.
Qed.

(** C6: on the empty content, for any topic, the report has length 0,
    no words, no topic or action word, score 10, and the suggestions
    lengthen, topic keywords, action words and punctuation (so exactly one
    length suggestion, the lengthen one). *)
Theorem analyze_empty_content (topic : string) :
  analyze_meta_description EmptyString topic =
  {| an_length := 0; word_count := 0; contains_topic := false;
     has_action_word := false;
     suggestions := [msg_lengthen; msg_topic; msg_action; msg_punct];
     score := 10 |}.
Proof.
  unfold analyze_meta_description. rewrite topic_check_empty. reflexivity.
Qed.

(** C7: a content of exactly 140 characters that contains a
    whitespace-delimited token of the lowercased topic, one of the action
    words (both case-insensitively) and a '?' gets score 100 and no
    suggestion. *)
Theorem analyze_len140_complete (description topic : string)
  (Hlen : String.length description = 140%nat)
  (Htopic : exists w, In w (py_split (py_lower topic)) /\
                      py_in w (py_lower description) = true)
  (Haction : exists w, In w action_words /\ py_in w (py_lower description) = true)
  (Hq : char_in "?" description = true) :
  score (analyze_meta_description description topic) = 100 /\
  suggestions (analyze_meta_description description topic) = [].
Proof.
  assert (Hct : topic_check description topic = true)
    by (apply existsb_exists; exact Htopic).
  assert (Hha : action_check description = true)
    by (apply existsb_exists; exact Haction).
  assert (Hp : punct_check description = true)
    by (rewrite punct_check_chars, Hq; apply orb_true_r).
  unfold analyze_meta_description, py_len. simpl suggestions; simpl score.
  rewrite Hct, Hha, Hp, Hlen. split; reflexivity.
Qed.

Lemma analyze_len140_complete_witness :
  score (analyze_meta_description sample140 "organic SEO") = 100 /\
  suggestions (analyze_meta_description sample140 "organic SEO") = [].
Proof.
  apply (analyze_len140_complete sample140 "organic SEO").
  - vm_compute. reflexivity.
  - exists "organic". split; [simpl; left; reflexivity | vm_compute; reflexivity].
  - exists "discover". split; [simpl; left; reflexivity | vm_compute; reflexivity].
  - vm_compute. reflexivity.
Defined.

(** C9: the suggestions are, in this order, shorten if length > 160,
    lengthen if length < 120, topic keywords if not [containsTopic], action
    words if not [hasActionWord], punctuation if the content has neither '!'
    nor '?'; the list is empty exactly when all these checks pass. *)
Theorem analyze_suggestions_order (description topic : string) :
  let a := analyze_meta_description description topic in
  let punct := char_in "!" description || char_in "?" description in
  suggestions a =
    ((if 160 <? an_length a then [msg_shorten] else []) ++
    (if an_length a <? 120 then [msg_lengthen] else []) ++
    (if negb (contains_topic a) then [msg_topic] else []) ++
    (if negb (has_action_word a) then [msg_action] else []) ++
    (if negb punct then [msg_punct] else []))%list /\
  (suggestions a = [] <->
     120 <= an_length a <= 160 /\ contains_topic a = true /\
     has_action_word a = true /\ punct = true).
Proof.
  unfold analyze_meta_description; simpl an_length; simpl contains_topic;
    simpl has_action_word; simpl suggestions.
  rewrite punct_check_chars.
  destruct (160 <? py_len description) eqn:E1,
           (py_len description <? 120) eqn:E2,
           (topic_check description topic),
           (action_check description),
           (char_in "!" description || char_in "?" description);
    simpl; (split; [reflexivity|]);
    rewrite ?Z.ltb_lt, ?Z.ltb_ge in *;
    split; intros H; try discriminate; try lia;
    repeat match goal with H : _ /\ _ |- _ => destruct H end;
    try discriminate; try lia; reflexivity.
Qed.

(** C10: shorten and lengthen never both appear, so there are at most
    four suggestions. *)
Theorem analyze_suggestions_at_most_four (description topic : string) :
  let s := suggestions (analyze_meta_description description topic) in
  ~ (In msg_shorten s /\ In msg_lengthen s) /\ (List.length s <= 4)%nat.
Proof.
  unfold analyze_meta_description; simpl suggestions.
  destruct (160 <? py_len description) eqn:E1,
           (py_len description <? 120) eqn:E2.
  - rewrite Z.ltb_lt in E1, E2. lia.
  - destruct_ifs; simpl; split; try lia;
      intros [H1 H2]; simpl in H2; intuition discriminate.
  - destruct_ifs; simpl; split; try lia;
      intros [H1 H2]; simpl in H1; intuition discriminate.
  - destruct_ifs; simpl; split; try lia;
      intros [H1 H2]; simpl in H1; intuition discriminate.
Qed.

(* ================================================================== *)
(** * Properties of the trends client *)

(** ** numpy rounding *)

Lemma np_round_comp (q q' : Q) : (q == q')%Q -> np_round q = np_round q'.
Proof.
  intros H. unfold np_round. rewrite (Qfloor_comp q q' H).
  assert (Hm : (q - inject_Z (Qfloor q') == q' - inject_Z (Qfloor q'))%Q)
    by (rewrite H; reflexivity).
  rewrite (Qcompare_comp _ _ Hm (1 # 2) (1 # 2) (Qeq_refl _)). reflexivity.
Qed.

Lemma np_round_Z (z : Z) : np_round (inject_Z z) = z.
Proof.
  unfold np_round. rewrite Qfloor_Z.
  replace (Qcompare (inject_Z z - inject_Z z) (1 # 2)) with Lt; [reflexivity|].
  symmetry. rewrite <- Qlt_alt. unfold Qlt; simpl. lia.
Qed.


Lemma np_round_floor (q : Q) :
  Qfloor q <= np_round q <= Qfloor q + 1.
Proof.
  unfold np_round. destruct (Qcompare _ _); [destruct (Z.even _)| |]; lia.
Qed.

Lemma np_round_mono (q q' : Q) : (q <= q')%Q -> np_round q <= np_round q'.
Proof.
  intros H.
  pose proof (Qfloor_resp_le _ _ H) as Hf.
  destruct (Z.eq_dec (Qfloor q) (Qfloor q')) as [Heq|Hne].
  - unfold np_round. rewrite <- Heq. set (f := Qfloor q).
    assert (Hd : (q - inject_Z f <= q' - inject_Z f)%Q) by lra.
    destruct (Qcompare (q - inject_Z f) (1 # 2)) eqn:E1;
      destruct (Qcompare (q' - inject_Z f) (1 # 2)) eqn:E2;
      try (destruct (Z.even f)); try lia; exfalso;
      first [apply Qeq_alt in E1 | apply Qgt_alt in E1];
      first [apply Qlt_alt in E2 | apply Qeq_alt in E2]; lra.
  - pose proof (np_round_floor q). pose proof (np_round_floor q'). lia.
Qed.

(** ** Doubles: powers of two *)
Lemma pow2_pos (e : Z) : (0 < pow2 e)%Q.
Proof. apply Qpower_0_lt. reflexivity. Qed.

Lemma pow2_add (a b : Z) : (pow2 (a + b) == pow2 a * pow2 b)%Q.
Proof. apply Qpower_plus. discriminate. Qed.

Lemma pow2_le (a b : Z) : a <= b -> (pow2 a <= pow2 b)%Q.
Proof. intros H. apply Qpower_le_compat_l; [exact H | discriminate]. Qed.

Lemma pow2_lt (a b : Z) : a < b -> (pow2 a < pow2 b)%Q.
Proof. intros H. apply Qpower_lt_compat_l; [exact H | reflexivity]. Qed.


Lemma pow2_Z (k : Z) : 0 <= k -> (pow2 k == inject_Z (2 ^ k))%Q.
Proof. intros H. unfold pow2. symmetry. apply Zpower_Qpower. exact H. Qed.

Lemma pow2_opp (k : Z) : (pow2 (- k) == / pow2 k)%Q.
Proof. apply Qpower_opp. Qed.

(** ** Doubles: exponent, rounding and finiteness *)
Lemma qlog2_spec (a : Q) :
  (0 < a)%Q -> (pow2 (qlog2 a) <= a < pow2 (qlog2 a + 1))%Q.
Proof.
  intros Ha. unfold qlog2. destruct (Qle_bool 1 a) eqn:E.
  - apply Qle_bool_iff in E.
    set (n := Qfloor a).
    assert (Hn : 1 <= n) by (change 1 with (Qfloor 1); apply Qfloor_resp_le, E).
    destruct (Z.log2_spec n ltac:(lia)) as [H1 H2].
    pose proof (Z.log2_nonneg n) as H0.
    rewrite !pow2_Z by lia.
    split.
    + apply Qle_trans with (inject_Z n); [rewrite <- Zle_Qle; exact H1 | apply Qfloor_le].
    + apply Qlt_le_trans with (inject_Z (n + 1)); [apply Qlt_floor|].
      rewrite <- Zle_Qle. lia.
  - assert (Ha1 : (a < 1)%Q).
    { apply Qnot_le_lt. intros H. apply Qle_bool_iff in H. congruence. }
    assert (Hinv : (1 < / a)%Q).
    { apply Qlt_shift_inv_l; [exact Ha | lra]. }
    set (c := Qceiling (/ a)).
    assert (Hc : 1 < c).
    { rewrite Zlt_Qlt. apply Qlt_le_trans with (/ a); [exact Hinv | apply Qle_ceiling]. }
    destruct (Z.log2_up_spec c Hc) as [H1 H2].
    set (g := Z.log2_up c) in *.
    assert (Hg : 1 <= g).
    { destruct (Z.le_gt_cases g 0) as [Hg|Hg]; [|lia].
      assert (2 ^ g <= 1) by (destruct (Z.eq_dec g 0) as [->|]; [reflexivity | rewrite Z.pow_neg_r by lia; lia]).
      lia. }
    replace (- g + 1) with (- (g - 1)) by lia.
    rewrite !pow2_opp, !pow2_Z by lia.
    assert (Hp1 : (0 < inject_Z (2 ^ g))%Q).
    { assert (0 < 2 ^ g) by (apply Z.pow_pos_nonneg; lia). unfold Qlt; simpl; lia. }
    assert (Hp2 : (0 < inject_Z (2 ^ (g - 1)))%Q).
    { assert (0 < 2 ^ (g - 1)) by (apply Z.pow_pos_nonneg; lia). unfold Qlt; simpl; lia. }
    assert (Hinv1 : (1 == a * / a)%Q) by (symmetry; apply Qmult_inv_r; lra).
    split.
    + apply Qle_shift_inv_r; [exact Hp1|]. rewrite Hinv1.
      apply Qmult_le_l; [exact Ha|].
      apply Qle_trans with (inject_Z c); [apply Qle_ceiling | rewrite <- Zle_Qle; exact H2].
    + apply Qlt_shift_inv_l; [exact Hp2|]. rewrite Hinv1.
      apply Qmult_lt_l; [exact Ha|].
      apply Qle_lt_trans with (inject_Z (c - 1)); [rewrite <- Zle_Qle; lia | apply Qceiling_lt].
Qed.




Lemma round_at_mono (e : Z) (q q' : Q) :
  (q <= q')%Q -> (round_at e q <= round_at e q')%Q.
Proof.
  intros H. unfold round_at. pose proof (pow2_pos e) as Hp.
  apply Qmult_le_compat_r; [|lra].
  rewrite <- Zle_Qle. apply np_round_mono.
  apply Qmult_le_compat_r; [exact H|].
  apply Qlt_le_weak, Qinv_lt_0_compat, Hp.
Qed.

Lemma round_at_exact (e K : Z) :
  (round_at e (inject_Z K * pow2 e) == inject_Z K * pow2 e)%Q.
Proof.
  unfold round_at. pose proof (pow2_pos e) as Hp.
  assert (E : (inject_Z K * pow2 e / pow2 e == inject_Z K)%Q) by (field; lra).
  rewrite (np_round_comp _ _ E), np_round_Z. reflexivity.
Qed.

Lemma round_at_up (e K : Z) (q : Q) :
  (q <= inject_Z K * pow2 e)%Q -> (round_at e q <= inject_Z K * pow2 e)%Q.
Proof.
  intros H. apply Qle_trans with (round_at e (inject_Z K * pow2 e));
    [apply round_at_mono, H | rewrite round_at_exact; apply Qle_refl].
Qed.

Lemma round_at_down (e K : Z) (q : Q) :
  (inject_Z K * pow2 e <= q)%Q -> (inject_Z K * pow2 e <= round_at e q)%Q.
Proof.
  intros H. apply Qle_trans with (round_at e (inject_Z K * pow2 e));
    [rewrite round_at_exact; apply Qle_refl | apply round_at_mono, H].
Qed.

Lemma round_at_nonneg (e : Z) (q : Q) : (0 <= q)%Q -> (0 <= round_at e q)%Q.
Proof.
  intros H. pose proof (round_at_down e 0 q) as D.
  assert (E : (inject_Z 0 * pow2 e == 0)%Q) by ring.
  rewrite E in D. exact (D H).
Qed.

Lemma pow2_inj_lt (a b : Z) : (pow2 a < pow2 b)%Q -> a < b.
Proof.
  intros H. destruct (Z.lt_ge_cases a b) as [|Hge]; [assumption|].
  apply pow2_le in Hge. lra.
Qed.

Lemma qlog2_mono (a b : Q) : (0 < a)%Q -> (a <= b)%Q -> qlog2 a <= qlog2 b.
Proof.
  intros Ha Hab.
  destruct (qlog2_spec a Ha) as [Ha1 _].
  destruct (qlog2_spec b ltac:(lra)) as [_ Hb2].
  assert (qlog2 a < qlog2 b + 1) by (apply pow2_inj_lt; lra). lia.
Qed.

Lemma qlog2_comp (a b : Q) : (a == b)%Q -> qlog2 a = qlog2 b.
Proof.
  intros H. unfold qlog2.
  destruct (Qle_bool 1 a) eqn:Ea, (Qle_bool 1 b) eqn:Eb.
  - now rewrite (Qfloor_comp _ _ H).
  - apply Qle_bool_iff in Ea. rewrite H in Ea. apply Qle_bool_iff in Ea. congruence.
  - apply Qle_bool_iff in Eb. rewrite <- H in Eb. apply Qle_bool_iff in Eb. congruence.
  - rewrite (Qceiling_comp (/ a) (/ b)); [reflexivity|]. now rewrite H.
Qed.


Lemma dbl_exp_nonneg (q : Q) : (0 <= q)%Q -> dbl_exp q = Z.max (qlog2 q - 52) (-1074).
Proof. intros H. unfold dbl_exp. now rewrite (qlog2_comp _ _ (Qabs_pos _ H)). Qed.

Lemma pow2_shift (a b : Z) : a <= b -> (pow2 b == inject_Z (2 ^ (b - a)) * pow2 a)%Q.
Proof.
  intros H. rewrite <- pow2_Z by lia. rewrite <- pow2_add.
  replace (b - a + a) with b by lia. reflexivity.
Qed.

Lemma round_mono (q q' : Q) :
  (0 < q)%Q -> (q <= q')%Q ->
  (round_at (dbl_exp q) q <= round_at (dbl_exp q') q')%Q.
Proof.
  intros Hq Hqq.
  rewrite (dbl_exp_nonneg q), (dbl_exp_nonneg q') by lra.
  pose proof (qlog2_mono q q' Hq Hqq) as Hf.
  destruct (qlog2_spec q Hq) as [_ Hq2].
  destruct (qlog2_spec q' ltac:(lra)) as [Hq1' _].
  set (f := qlog2 q) in *. set (f' := qlog2 q') in *.
  destruct (Z.eq_dec (Z.max (f - 52) (-1074)) (Z.max (f' - 52) (-1074))) as [E|N].
  - rewrite E. apply round_at_mono, Hqq.
  - set (e := Z.max (f - 52) (-1074)) in *. set (e' := Z.max (f' - 52) (-1074)) in *.
    assert (He' : e' = f' - 52) by lia.
    assert (Hff : f + 1 <= f') by lia.
    assert (Hee : e <= f') by lia.
    apply Qle_trans with (pow2 f').
    + rewrite (pow2_shift e f' Hee). apply round_at_up.
      rewrite <- (pow2_shift e f' Hee).
      apply Qle_trans with (pow2 (f + 1)); [lra | apply pow2_le, Hff].
    + replace (pow2 f') with (pow2 (52 + e')) by (f_equal; lia).
      rewrite (pow2_shift e' (52 + e')) by lia.
      apply round_at_down. rewrite <- (pow2_shift e' (52 + e')) by lia.
      replace (52 + e') with f' by lia. exact Hq1'.
Qed.

Lemma to_double_nonneg (q r : Q) : (0 <= q)%Q -> to_double q = Some r -> (0 <= r)%Q.
Proof.
  intros Hq. unfold to_double. destruct (Qeq_bool q 0); [intros [= <-]; lra|].
  cbv zeta. destruct (Qle_bool _ _); [discriminate|]. intros [= <-].
  apply round_at_nonneg, Hq.
Qed.

Lemma to_double_mono (q q' r r' : Q) :
  (0 <= q)%Q -> (q <= q')%Q -> to_double q = Some r -> to_double q' = Some r' ->
  (r <= r')%Q.
Proof.
  intros Hq Hqq Hr Hr'.
  pose proof (to_double_nonneg q' r' ltac:(lra) Hr') as H0'.
  unfold to_double in Hr. destruct (Qeq_bool q 0) eqn:E; [injection Hr as <-; exact H0'|].
  assert (Hq0 : (0 < q)%Q).
  { destruct (Qle_lt_or_eq _ _ Hq) as [|Heq]; [assumption|].
    exfalso. symmetry in Heq. apply Qeq_bool_iff in Heq. congruence. }
  unfold to_double in Hr'.
  destruct (Qeq_bool q' 0) eqn:E'.
  { apply Qeq_bool_iff in E'. lra. }
  cbv zeta in Hr, Hr'.
  destruct (Qle_bool _ (Qabs (round_at (dbl_exp q) q))); [discriminate|].
  destruct (Qle_bool _ (Qabs (round_at (dbl_exp q') q'))); [discriminate|].
  injection Hr as <-. injection Hr' as <-. apply round_mono; assumption.
Qed.










Lemma difficulty_of_inv (v m d : Z) :
  difficulty_of v m = Some d ->
  exists x y z w,
    to_double (inject_Z v) = Some x /\ to_double (inject_Z m) = Some y /\
    ~ (y == 0)%Q /\ to_double (x / y) = Some z /\
    to_double (z * inject_Z 100) = Some w /\ d = np_round w.
Proof.
  unfold difficulty_of, float_div.
  destruct (to_double (inject_Z v)) as [x|] eqn:Ex; [|discriminate].
  destruct (to_double (inject_Z m)) as [y|] eqn:Ey; [|discriminate].
  destruct (Qeq_bool y 0) eqn:Ey0; [discriminate|].
  destruct (to_double (x / y)) as [z|] eqn:Ez; [|discriminate].
  destruct (to_double (z * inject_Z 100)) as [w|] eqn:Ew; [|discriminate].
  intros [= <-]. exists x, y, z, w.
  repeat split; try reflexivity; try assumption.
  intros H. apply Qeq_bool_iff in H. congruence.
Qed.

Lemma Q_of_Z_le (a b : Z) : a <= b -> (inject_Z a <= inject_Z b)%Q.
Proof. rewrite <- Zle_Qle. exact (fun H => H). Qed.



Lemma difficulty_of_mono (v v' m d d' : Z) :
  0 <= v <= v' -> 0 <= m ->
  difficulty_of v m = Some d -> difficulty_of v' m = Some d' -> d <= d'.
Proof.
  intros Hv Hm Hd Hd'.
  destruct (difficulty_of_inv v m d Hd) as (x & y & z & w & Hx & Hy & Hy0 & Hz & Hw & ->).
  destruct (difficulty_of_inv v' m d' Hd') as (x' & y' & z' & w' & Hx' & Hy' & _ & Hz' & Hw' & ->).
  rewrite Hy in Hy'. injection Hy' as <-.
  assert (Hv0 : (0 <= inject_Z v)%Q) by (apply (Q_of_Z_le 0); lia).
  assert (Hvv : (inject_Z v <= inject_Z v')%Q) by (apply Q_of_Z_le; lia).
  assert (Hm0 : (0 <= inject_Z m)%Q) by (apply (Q_of_Z_le 0); lia).
  pose proof (to_double_nonneg _ _ Hv0 Hx) as Hx0.
  pose proof (to_double_mono _ _ _ _ Hv0 Hvv Hx Hx') as Hxx.
  pose proof (to_double_nonneg _ _ Hm0 Hy) as Hy1.
  assert (Hyi : (0 <= / y)%Q) by (apply Qinv_le_0_compat; exact Hy1).
  assert (Hq0 : (0 <= x / y)%Q) by (apply Qmult_le_0_compat; assumption).
  assert (Hqq : (x / y <= x' / y)%Q) by (apply Qmult_le_compat_r; assumption).
  pose proof (to_double_nonneg _ _ Hq0 Hz) as Hz0.
  pose proof (to_double_mono _ _ _ _ Hq0 Hqq Hz Hz') as Hzz.
  change (inject_Z 100) with 100%Q in Hw, Hw'.
  assert (Hp0 : (0 <= z * 100)%Q) by lra.
  assert (Hpp : (z * 100 <= z' * 100)%Q) by lra.
  apply np_round_mono. exact (to_double_mono _ _ _ _ Hp0 Hpp Hw Hw').
Qed.




(** ** [series.max()] and the derived columns *)

Lemma fold_max_spec (rest : list Z) (acc : Z) :
  acc <= fold_left Z.max rest acc /\
  (forall y, In y rest -> y <= fold_left Z.max rest acc) /\
  (fold_left Z.max rest acc = acc \/ In (fold_left Z.max rest acc) rest).
Proof.
  revert acc; induction rest as [|x rest IH]; intros acc; simpl.
  - split; [lia | split; [tauto | left; reflexivity]].
  - destruct (IH (Z.max acc x)) as [H1 [H2 H3]].
    split; [lia | split].
    + intros y [<-|Hy]; [lia | auto].
    + destruct H3 as [H3|H3]; [|right; right; exact H3].
      rewrite H3. destruct (Z.max_spec acc x) as [[_ E]|[_ E]]; rewrite E;
        [right; left; reflexivity | left; reflexivity].
Qed.

Lemma series_max_spec (xs : list Z) :
  xs <> [] ->
  In (series_max xs) xs /\ (forall y, In y xs -> y <= series_max xs).
Proof.
  destruct xs as [|x rest]; [contradiction|]. intros _. simpl.
  destruct (fold_max_spec rest x) as [H1 [H2 [H3|H3]]].
  - split; [left; symmetry; exact H3 |]. intros y [<-|Hy]; auto.
  - split; [right; exact H3 |]. intros y [<-|Hy]; auto.
Qed.

Lemma attach_map (df : related_df) (f g : Z -> Z) :
  attach df (map f (map rq_value df)) (map g (map rq_value df)) =
  map (fun r => mk_row (rq_query r) (rq_value r) (f (rq_value r)) (g (rq_value r))) df.
Proof. induction df as [|r df IH]; simpl; [reflexivity | now rewrite IH]. Qed.

Lemma difficulty_of_zero (v : Z) : difficulty_of v 0 = None.
Proof. unfold difficulty_of, float_div. destruct (to_double (inject_Z v)); reflexivity. Qed.

Lemma add_metrics_ok (df : related_df) :
  (forall r, In r df -> difficulty_of (rq_value r) (series_max (map rq_value df)) <> None) ->
  add_metrics df =
  Ok {| columns := trend_columns;
        rows := map (derived_row (series_max (map rq_value df))) df |}.
Proof.
  intros Hall. unfold add_metrics.
  set (m := series_max (map rq_value df)) in *.
  unfold astype_int.
  replace (forallb _ _) with true.
  2:{ symmetry. apply forallb_forall. intros x Hx.
      apply in_map_iff in Hx as [v [<- Hv]]. apply in_map_iff in Hv as [r [<- Hr]].
      specialize (Hall r Hr). destruct (difficulty_of (rq_value r) m); [reflexivity|].
      contradiction. }
  set (g := fun v => match difficulty_of v m with Some d => d | None => 0 end).
  assert (E2 : forall xs, map (fun o : option Z => match o with
                                                   | Some z => z | None => 0 end)
                                (map (fun v => difficulty_of v m) xs) = map g xs)
    by (intros xs; rewrite map_map; reflexivity).
  simpl. rewrite E2, (attach_map df (fun v => v * 100) g). reflexivity.
Qed.

Lemma add_metrics_exc (df : related_df) (r : related_row) :
  In r df -> difficulty_of (rq_value r) (series_max (map rq_value df)) = None ->
  add_metrics df = Exc cast_error.
Proof.
  intros Hr Hn. unfold add_metrics, astype_int.
  replace (forallb _ _) with false; [reflexivity|].
  symmetry. apply not_true_iff_false. intros H.
  rewrite forallb_forall in H.
  set (m := series_max (map rq_value df)) in *.
  assert (Hin : In None (map (fun v => difficulty_of v m) (map rq_value df))).
  { rewrite <- Hn. apply (in_map (fun v => difficulty_of v m)), in_map, Hr. }
  discriminate (H None Hin).
Qed.


(** Every successful run of the [try] body yields [pd.DataFrame()] or the
    provider rows with their two derived columns, every difficulty being
    finite. *)
Lemma fetch_try_ok_cases (keyword : string) (call : trends_call) (f : frame) :
  fetch_try keyword call = Ok f ->
  f = empty_frame \/
  exists df, df <> [] /\ series_max (map rq_value df) <> 0 /\
    (forall r, In r df ->
       difficulty_of (rq_value r) (series_max (map rq_value df)) <> None) /\
    f = {| columns := trend_columns;
           rows := map (derived_row (series_max (map rq_value df))) df |}.
Proof.
  destruct call as [e|rq]; simpl; [discriminate|].
  destruct (dict_get keyword rq) as [entry|]; [|intros [= <-]; left; reflexivity].
  unfold py_getitem. destruct (dict_get "top" entry) as [top|]; simpl; [|discriminate].
  destruct top as [[|r df']|]; try (intros [= <-]; left; reflexivity).
  set (df := r :: df').
  set (M := series_max (map rq_value df)).
  destruct (existsb (fun x => match difficulty_of (rq_value x) M with
                              | Some _ => false | None => true end) df) eqn:Ex.
  - apply existsb_exists in Ex as [x [Hx Hn]].
    destruct (difficulty_of (rq_value x) M) eqn:Ed; [discriminate|].
    rewrite (add_metrics_exc df x Hx Ed). discriminate.
  - assert (Hall : forall x, In x df -> difficulty_of (rq_value x) M <> None).
    { intros x Hx Hn. assert (existsb (fun x => match difficulty_of (rq_value x) M with
                              | Some _ => false | None => true end) df = true)
        by (apply existsb_exists; exists x; rewrite Hn; split; [exact Hx | reflexivity]).
      congruence. }
    rewrite (add_metrics_ok df Hall). intros [= <-]. right.
    exists df. split; [discriminate | split; [|split; [exact Hall | reflexivity]]].
    intros Hz. apply (Hall r (or_introl eq_refl)). unfold M. rewrite Hz.
    apply difficulty_of_zero.
Qed.






(** ** Provenance of the fallback (C2) *)

(** C2 counterexample: for the keyword "seo", the frame returned after a
    provider error and the frame returned for a successful response have
    the same columns and the same query, popularity and volume in every row:
    no column or field marks the fallback. *)
Lemma fetch_fallback_same_shape_as_real :
  let fallback := snd (fetch_keyword_trends "seo" (TrendsRaises "timeout")) in
  let real := snd (fetch_keyword_trends "seo"
                     (TrendsReturns [("seo", [("top", Some seo_top);
                                              ("rising", None)])])) in
  columns fallback = columns real /\
  map (fun r => (query r, value r, estimated_volume r)) (rows fallback) =
  map (fun r => (query r, value r, estimated_volume r)) (rows real).
Proof. vm_compute. split; reflexivity. Qed.

(** C2 (as amended): on a provider error the result is the plain mock
    frame, with the same four columns as every non-empty real result; the
    only trace of the error is the message shown by [st.error]. *)
Theorem fetch_fallback_is_plain_frame (keyword e : string) :
  fetch_keyword_trends keyword (TrendsRaises e) =
    ([UiError ("Trends API error: " ++ e)], create_mock_keyword_data keyword) /\
  columns (create_mock_keyword_data keyword) = trend_columns /\
  (forall call, rows (snd (fetch_keyword_trends keyword call)) <> [] ->
     columns (snd (fetch_keyword_trends keyword call)) = trend_columns).
Proof.
  split; [reflexivity | split; [reflexivity|]].
  intros call. unfold fetch_keyword_trends.
  destruct (fetch_try keyword call) as [f|e'] eqn:E; simpl; [|reflexivity].
  destruct (fetch_try_ok_cases _ _ _ E) as [->|[df [_ [_ [_ ->]]]]]; simpl;
    [intros H; now contradiction H | reflexivity].
Qed.

(** ** Empty results and mock substitution (C4) *)



(* ================================================================== *)
(** * Properties of credential resolution *)

(** With a secrets file present, the order is secret store, then a
    non-empty environment variable, then a non-empty sidebar key; a
    constructor error on the first key found is shown and the sidebar key
    is tried. *)
Lemma resolve_client_with_secrets_file (d : list (string * string))
  (env : option string) (new_client : client_ctor) (temp_key : string) :
  resolve_client (Some d) env new_client temp_key =
  match dict_get "OPENAI_API_KEY" d with
  | Some k =>
      match new_client k with
      | Ok c => ([], Ok (Some c))
      | Exc e => ([UiError ("API configuration failed: " ++ e)],
                  get_api_key_input new_client temp_key)
      end
  | None =>
      match env with
      | Some k =>
          if String.eqb k "" then ([], get_api_key_input new_client temp_key)
          else match new_client k with
               | Ok c => ([], Ok (Some c))
               | Exc e => ([UiError ("API configuration failed: " ++ e)],
                           get_api_key_input new_client temp_key)
               end
      | None => ([], get_api_key_input new_client temp_key)
      end
  end.
Proof.
  unfold resolve_client, configure_openai; simpl.
  destruct (dict_get "OPENAI_API_KEY" d) as [k|] eqn:E; simpl.
  - unfold py_getitem. rewrite E. simpl. destruct (new_client k); reflexivity.
  - destruct env as [k|]; [|reflexivity].
    destruct (String.eqb k ""); [reflexivity|]. simpl.
    destruct (new_client k); reflexivity.
Qed.

(** Without a client, generation stops before the [try] block, shows an
    error and returns nothing. *)
Lemma generate_without_client_halts
  (try_block : list ui_msg * option (string * analysis)) (topic tone : string)
  (target_length : Z) :
  generate_meta_description None try_block topic tone target_length =
  ([UiError "OpenAI client not configured. Please provide API key."], None).
Proof. reflexivity. Qed.

(** C5 (defect): when the app has no secrets file, the membership test on
    [st.secrets] raises inside the one [try] of [configure_openai], so the
    environment variable is never consulted: with [OPENAI_API_KEY=sk-env]
    set, the sidebar key is the one handed to [OpenAI(...)], and with a
    blank sidebar no client is configured and generation is refused,
    whatever the constructor and the [try] block of the generator do. *)
Theorem resolve_client_skips_env_without_secrets_file (new_client : client_ctor) :
  resolve_client None (Some "sk-env") new_client "sk-ui" =
    ([UiError "API configuration failed: No secrets files found."],
     c <- new_client "sk-ui" ;; Ok (Some c)) /\
  resolve_client None (Some "sk-env") new_client "" =
    ([UiError "API configuration failed: No secrets files found."], Ok None) /\
  (forall try_block,
     generate_meta_description None try_block "organic SEO" "Professional" 155 =
     ([UiError "OpenAI client not configured. Please provide API key."], None)).
Proof. split; [reflexivity | split; [reflexivity | intros; reflexivity]]. Qed.

(* ================================================================== *)
(** * Further properties of the analyzer *)

(** ** Letter case *)

Lemma ascii_forall (P : ascii -> bool) :
  forallb P (map ascii_of_nat (seq 0 256)) = true -> forall c, P c = true.
Proof.
  intros H c. rewrite forallb_forall in H.
  rewrite <- (ascii_nat_embedding c). apply H, in_map, in_seq.
  pose proof (nat_ascii_bounded c). lia.
Qed.

Lemma is_space_lower_char (c : ascii) : is_space (lower_char c) = is_space c.
Proof.
  apply Bool.eqb_prop.
  revert c. apply (ascii_forall (fun c => Bool.eqb (is_space (lower_char c)) (is_space c))).
  vm_compute. reflexivity.
Qed.

(** ** Score *)

Ltac bools_to_props :=
  repeat match goal with
  | H : (_ && _) = true |- _ => apply andb_true_iff in H as [? ?]
  | H : (_ || _) = false |- _ => apply orb_false_iff in H as [? ?]
  | H : (_ || _) = true |- _ => apply orb_true_iff in H
  | H : (_ && _) = false |- _ => apply andb_false_iff in H
  | H : (_ <=? _) = true |- _ => apply Z.leb_le in H
  | H : (_ <=? _) = false |- _ => apply Z.leb_gt in H
  | H : (_ <? _) = true |- _ => apply Z.ltb_lt in H
  | H : (_ <? _) = false |- _ => apply Z.ltb_ge in H
  end.

(** Extra: the score is 100 exactly when the length is in [120, 160] and
    the content has both a topic word and an action word. *)
Theorem analyze_score_max_iff (description topic : string) :
  let a := analyze_meta_description description topic in
  score a = 100 <->
  120 <= an_length a <= 160 /\ contains_topic a = true /\ has_action_word a = true.
Proof.
  simpl. unfold calculate_seo_score.
  destruct (topic_check description topic), (action_check description);
    destruct_ifs; bools_to_props; simpl;
    intuition (try lia; try discriminate).
Qed.

(** Extra: the score is a multiple of 10 between 10 and 100, and a topic
    word or an action word never lowers it. *)
Theorem calculate_seo_score_steps (length : Z) (ct ha ct' ha' : bool) :
  calculate_seo_score length ct ha mod 10 = 0 /\
  10 <= calculate_seo_score length ct ha <= 100 /\
  (implb ct ct' = true -> implb ha ha' = true ->
   calculate_seo_score length ct ha <= calculate_seo_score length ct' ha').
Proof.
  unfold calculate_seo_score.
  destruct ct, ha, ct', ha'; destruct_ifs; simpl;
    (split; [reflexivity | split; [lia | intros H1 H2; try discriminate; lia]]).
Qed.

(** ** Words and topics *)

Lemma split_go_length (s cur : string) :
  (List.length (split_go s cur) <=
   String.length s + match cur with EmptyString => 0 | _ => 1 end)%nat.
Proof.
  revert cur. induction s as [|c s IH]; intros cur; simpl.
  - destruct cur; simpl; lia.
  - destruct (is_space c).
    + destruct cur; simpl; pose proof (IH EmptyString); simpl in *; lia.
    + pose proof (IH (cur ++ String c EmptyString)) as H.
      destruct cur; simpl in *; lia.
Qed.

Lemma split_go_not_nil (s cur : string) :
  cur <> EmptyString -> split_go s cur <> [].
Proof.
  revert cur. induction s as [|c s IH]; intros cur Hc; simpl.
  - destruct cur; [contradiction | discriminate].
  - destruct (is_space c).
    + destruct cur; [contradiction | discriminate].
    + apply IH. destruct cur; discriminate.
Qed.

Lemma split_nil_iff (s : string) :
  py_split s = [] <-> forallb is_space (chars s) = true.
Proof.
  unfold py_split. induction s as [|c s IH]; simpl; [tauto|].
  destruct (is_space c); simpl; [exact IH|].
  split; [intros H; exfalso; exact (split_go_not_nil s (String c EmptyString) ltac:(discriminate) H)
         | discriminate].
Qed.

(** Extra: the word count never exceeds the character count, and it is 0
    exactly when the content consists of whitespace only. *)
Theorem analyze_word_count_bounds (description topic : string) :
  let a := analyze_meta_description description topic in
  word_count a <= an_length a /\
  (word_count a = 0 <-> forallb is_space (chars description) = true).
Proof.
  simpl. unfold py_len. split.
  - pose proof (split_go_length description EmptyString) as H.
    rewrite Nat.add_0_r in H. unfold py_split. lia.
  - rewrite <- split_nil_iff. split.
    + intros H. destruct (py_split description); [reflexivity | simpl in H; lia].
    + intros ->. reflexivity.
Qed.

Lemma forallb_space_lower (s : string) :
  forallb is_space (chars (py_lower s)) = forallb is_space (chars s).
Proof. induction s; simpl; [reflexivity | now rewrite is_space_lower_char, IHs]. Qed.

(** Extra: a topic made of whitespace only (the empty topic included) is
    never found in the content: [containsTopic] is false, the topic
    suggestion is always given and the score is at most 70. *)
Theorem analyze_blank_topic (description topic : string)
  (Hblank : forallb is_space (chars topic) = true) :
  let a := analyze_meta_description description topic in
  contains_topic a = false /\ In msg_topic (suggestions a) /\ score a <= 70.
Proof.
  assert (Hct : topic_check description topic = false).
  { unfold topic_check.
    assert (E : py_split (py_lower topic) = [])
      by (apply split_nil_iff; rewrite forallb_space_lower; exact Hblank).
    rewrite E. reflexivity. }
  unfold analyze_meta_description; simpl. rewrite Hct. split; [reflexivity|].
  split.
  - destruct_ifs; simpl in *; try discriminate; intuition.
  - unfold calculate_seo_score. destruct_ifs; simpl; lia.
Qed.

Lemma analyze_blank_topic_witness :
  let a := analyze_meta_description "Discover organic SEO tips!" "  " in
  contains_topic a = false /\ In msg_topic (suggestions a) /\ score a <= 70.
Proof. apply analyze_blank_topic. reflexivity. Defined.

(* ================================================================== *)
(** * Properties of the Keyword Explorer *)

(** Extra: when no error is shown, the keyword difficulty follows the
    popularity order: of two rows with non-negative popularity scores, the
    more popular one never has the lower difficulty (rows of equal
    popularity have equal difficulty). *)
Theorem fetch_difficulty_monotone (keyword : string) (call : trends_call)
  (Hok : fst (fetch_keyword_trends keyword call) = [])
  (Hpop : forall r, In r (rows (snd (fetch_keyword_trends keyword call))) ->
          0 <= value r) :
  forall r1 r2,
    In r1 (rows (snd (fetch_keyword_trends keyword call))) ->
    In r2 (rows (snd (fetch_keyword_trends keyword call))) ->
    value r1 <= value r2 -> difficulty r1 <= difficulty r2.
Proof.
  unfold fetch_keyword_trends in *.
  destruct (fetch_try keyword call) as [f|e] eqn:E; simpl in *; [|discriminate].
  destruct (fetch_try_ok_cases _ _ _ E) as [->|[df [Hne [Hm [Hall ->]]]]];
    [intros r1 r2 []|].
  simpl in *.
  set (M := series_max (map rq_value df)) in *.
  destruct (series_max_spec (map rq_value df)) as [HinM _];
    [destruct df; [contradiction | discriminate]|].
  fold M in HinM.
  apply in_map_iff in HinM as [r0 [Hr0 Hin0]].
  assert (HM0 : 0 <= M).
  { rewrite <- Hr0. apply (Hpop (derived_row M r0)). apply in_map. exact Hin0. }
  intros r1 r2 H1 H2 Hle.
  pose proof (Hpop r1 H1) as Hv1.
  apply in_map_iff in H1 as [a [<- Ha]]. apply in_map_iff in H2 as [b [<- Hb]].
  simpl in *.
  destruct (difficulty_of (rq_value a) M) as [da|] eqn:Ea;
    [|contradiction (Hall a Ha Ea)].
  destruct (difficulty_of (rq_value b) M) as [db|] eqn:Eb;
    [|contradiction (Hall b Hb Eb)].
  apply (difficulty_of_mono (rq_value a) (rq_value b) M); [lia | lia | exact Ea | exact Eb].
Qed.

Lemma fetch_difficulty_monotone_witness :
  difficulty (nth 1 (rows (snd (fetch_keyword_trends "seo" sample_call)))
                (mk_row "" 0 0 0)) <=
  difficulty (nth 0 (rows (snd (fetch_keyword_trends "seo" sample_call)))
                (mk_row "" 0 0 0)).
Proof.
  apply (fetch_difficulty_monotone "seo" sample_call).
  - reflexivity.
  - vm_compute. intros r H. repeat destruct H as [<-|H]; try discriminate.
    contradiction.
  - vm_compute. right. left. reflexivity.
  - vm_compute. left. reflexivity.
  - vm_compute. discriminate.
Defined.

(** ** Page handler of the Keyword Explorer *)







Lemma char_in_app (ch : ascii) (a b : string) :
  char_in ch (a ++ b) = char_in ch a || char_in ch b.
Proof.
  induction a as [|c a IH]; simpl; [reflexivity|]. rewrite IH. apply orb_assoc.
Qed.

Lemma string_length_app (a b : string) :
  String.length (a ++ b) = (String.length a + String.length b)%nat.
Proof. induction a as [|c a IH]; simpl; [reflexivity | now rewrite IH]. Qed.

Lemma replace_space_spec (s : string) :
  char_in " " (replace_space s) = false /\
  String.length (replace_space s) = String.length s.
Proof.
  induction s as [|c s [IH1 IH2]];
    cbn [replace_space char_in String.length]; [split; reflexivity|].
  rewrite IH1, IH2. split; [|reflexivity].
  destruct (Ascii.eqb_spec c " ") as [->|Hne]; [reflexivity|].
  rewrite orb_false_r. apply Ascii.eqb_neq. congruence.
Qed.

(** Extra: the CSV file name never contains a space, and it is exactly 21
    characters longer than the keyword ("keyword_research_" and ".csv"). *)
Theorem csv_file_name_spec (keyword : string) :
  char_in " " (csv_file_name keyword) = false /\
  String.length (csv_file_name keyword) = (String.length keyword + 21)%nat.
Proof.
  destruct (replace_space_spec keyword) as [H1 H2]. unfold csv_file_name.
  split.
  - rewrite !char_in_app, H1. reflexivity.
  - rewrite !string_length_app, H2. simpl. lia.
Qed.

(* ================================================================== *)
(** * Properties of the credential resolution *)

(** Extra: when the app has a secrets file, the client is built from the
    first source that provides a key: the secret [OPENAI_API_KEY] (even an
    empty one, the environment variable being then ignored), then a
    non-empty environment variable, then the sidebar entry; when the
    constructor raises on the first key, its error is shown and the sidebar
    entry is used instead. *)
Theorem resolve_client_priority (d : list (string * string))
  (env env' : option string) (new_client : client_ctor) (temp_key : string) :
  (forall k, dict_get "OPENAI_API_KEY" d = Some k ->
   resolve_client (Some d) env new_client temp_key =
     resolve_client (Some d) env' new_client temp_key /\
   (forall c, new_client k = Ok c ->
    resolve_client (Some d) env new_client temp_key = ([], Ok (Some c))) /\
   (forall e, new_client k = Exc e ->
    resolve_client (Some d) env new_client temp_key =
      ([UiError ("API configuration failed: " ++ e)],
       get_api_key_input new_client temp_key))) /\
  (forall k, dict_get "OPENAI_API_KEY" d = None -> env = Some k -> k <> "" ->
   (forall c, new_client k = Ok c ->
    resolve_client (Some d) env new_client temp_key = ([], Ok (Some c))) /\
   (forall e, new_client k = Exc e ->
    resolve_client (Some d) env new_client temp_key =
      ([UiError ("API configuration failed: " ++ e)],
       get_api_key_input new_client temp_key))) /\
  (dict_get "OPENAI_API_KEY" d = None -> env = None \/ env = Some "" ->
   resolve_client (Some d) env new_client temp_key =
     ([], get_api_key_input new_client temp_key)).
Proof.
  rewrite !resolve_client_with_secrets_file.
  split; [|split].
  - intros k Hk. rewrite Hk.
    split; [reflexivity|]. split; intros x Hx; rewrite Hx; reflexivity.
  - intros k Hk -> Hne. rewrite Hk. apply String.eqb_neq in Hne. rewrite Hne.
    split; intros x Hx; rewrite Hx; reflexivity.
  - intros Hk Henv. rewrite Hk. destruct Henv as [-> | ->]; reflexivity.
Qed.

(** ** Thousands separators *)

Definition horner (ds : list Z) (acc : Z) : Z :=
  fold_left (fun a d => a * 10 + d) ds acc.

Lemma digits_go_spec (fuel : nat) (n : Z) (acc : list Z) :
  (0 < fuel)%nat -> 0 <= n < 2 ^ Z.of_nat fuel ->
  exists ds, digits_go fuel n acc = (ds ++ acc)%list /\ ds <> [] /\
    Forall (fun d => 0 <= d <= 9) ds /\ horner ds 0 = n.
Proof.
  revert n acc. induction fuel as [|f IH]; intros n acc Hfuel Hn; [lia|].
  - rewrite Nat2Z.inj_succ, Z.pow_succ_r in Hn by lia.
    simpl. destruct (n <? 10) eqn:E; bools_to_props.
    + exists [n]. split; [reflexivity|]. split; [discriminate|].
      split; [constructor; [lia | constructor] | reflexivity].
    + pose proof (Z.div_mod n 10 ltac:(lia)) as Hdm.
      pose proof (Z.mod_pos_bound n 10 ltac:(lia)) as Hmb.
      destruct (IH (n / 10) ((n mod 10) :: acc)) as [ds [Heq [Hne [Hf Hh]]]];
        [destruct f; simpl in Hn; lia | lia |].
      exists (ds ++ [n mod 10])%list. rewrite Heq, <- app_assoc.
      split; [reflexivity|]. split; [destruct ds; discriminate|].
      split.
      * apply Forall_app. split; [exact Hf|].
        constructor; [lia | constructor].
      * unfold horner in *. rewrite fold_left_app, Hh. simpl. lia.
Qed.

Lemma decimal_digits_spec (n : Z) :
  0 <= n ->
  decimal_digits n <> [] /\ Forall (fun d => 0 <= d <= 9) (decimal_digits n) /\
  horner (decimal_digits n) 0 = n.
Proof.
  intros Hn. unfold decimal_digits.
  destruct (digits_go_spec (S (Z.to_nat (Z.log2 n))) n []) as [ds [-> [Hne [Hf Hh]]]].
  - lia.
  - split; [exact Hn|].
    rewrite Nat2Z.inj_succ, Z2Nat.id by apply Z.log2_nonneg.
    destruct (Z.eq_dec n 0) as [->|Hn0]; [reflexivity|].
    apply Z.log2_spec. lia.
  - rewrite app_nil_r. auto.
Qed.

Lemma read_digit_char (d : Z) :
  0 <= d <= 9 ->
  Ascii.eqb (digit_char d) "," = false /\ Ascii.eqb (digit_char d) "-" = false /\
  Z.of_nat (nat_of_ascii (digit_char d)) - 48 = d.
Proof.
  intros Hd.
  assert (d = 0 \/ d = 1 \/ d = 2 \/ d = 3 \/ d = 4 \/ d = 5 \/ d = 6 \/
          d = 7 \/ d = 8 \/ d = 9) by lia.
  repeat (destruct H as [->|H]; [repeat split; reflexivity|]).
  subst d. repeat split; reflexivity.
Qed.

Lemma read_group_thousands (ds : list Z) (acc : Z) :
  Forall (fun d => 0 <= d <= 9) ds ->
  read_digits (group_thousands ds) acc = horner ds acc.
Proof.
  revert acc. induction ds as [|d ds IH]; intros acc Hf; [reflexivity|].
  inversion Hf as [|? ? Hd Hf']; subst.
  destruct (read_digit_char d Hd) as [Hc [_ Hv]].
  cbn [group_thousands read_digits]. rewrite Hc, Hv.
  destruct (negb _ && _); cbn [read_digits];
    [change (Ascii.eqb "," ",") with true; cbv iota beta|]; apply IH; exact Hf'.
Qed.

(** Extra: the "Est. Volume" text shown for an integer in the results table
    reads back as that integer: skipping the commas and reading the digits
    (after the minus sign, if any) gives the number formatted. *)
Theorem format_thousands_roundtrip (x : Z) :
  read_int (format_thousands x) = x.
Proof.
  unfold format_thousands. destruct (x <? 0) eqn:E; bools_to_props.
  - destruct (decimal_digits_spec (- x) ltac:(lia)) as [_ [Hf Hh]].
    cbn [read_int]. change (Ascii.eqb "-" "-") with true. cbv iota beta.
    rewrite read_group_thousands by exact Hf. lia.
  - destruct (decimal_digits_spec x ltac:(lia)) as [Hne [Hf Hh]].
    destruct (decimal_digits x) as [|d ds] eqn:Ed; [contradiction|].
    inversion Hf as [|? ? Hd _]; subst.
    destruct (read_digit_char d Hd) as [_ [Hm _]].
    rewrite <- (read_group_thousands (d :: ds) 0 Hf).
    unfold group_thousands at 1; fold group_thousands.
    cbn [read_int]. rewrite Hm. reflexivity.
Qed.
